(** * Last-Deploy: deployment worker, path guard, port parsers and git checkout

    A shallow embedding of the Go backend of Last-Deploy
    (packages [workspace], [engine], [jobs], [store] and the port parsers of
    package [api]) together with the properties of its specification.

    Conventions of the embedding.
    - A Go [string] is a byte string, here a Rocq [string].  The functions of
      Go's [strings] package are modelled on ASCII text: [TrimSpace] removes the
      six ASCII white-space bytes and [ToUpper] maps [a-z] to [A-Z]; bytes
      outside ASCII are left alone.
    - Go's [int] is 64 bits wide: arithmetic on it is written on [Z] with the
      wrap-around made explicit ([wrap64]).
    - [path/filepath] is the Unix implementation (separator [/], no volume
      names), modelled on path elements.
    - A Go [error] result is a value of [result]; the message is kept.
    - The record store is a pair of finite maps (jobs and projects by id); the
      clock, the file system, git and the container engine are outcomes
      supplied by the environment. *)

From Stdlib Require Import ZArith Lia List Ascii String Bool DecimalString.
From stdpp Require Import base option list gmap strings sorting.

Open Scope string_scope.
Import ListNotations.

(** ** Results of fallible Go functions *)

Inductive result (A : Type) : Type :=
| Ok (a : A)
| Err (msg : string).
Arguments Ok {A} a.
Arguments Err {A} msg.

Definition is_err {A} (r : result A) : bool :=
  match r with Ok _ => false | Err _ => true end.

(** ** Package [strings] *)

Module GoStrings.

(** The ASCII white space of [strings.TrimSpace]: tab, newline, vertical tab,
    form feed, carriage return and space. *)
Definition isSpace (c : ascii) : bool :=
  (c =? "009")%char || (c =? "010")%char || (c =? "011")%char ||
  (c =? "012")%char || (c =? "013")%char || (c =? " ")%char.

Fixpoint TrimLeftFunc (f : ascii -> bool) (s : string) : string :=
  match s with
  | "" => ""
  | String c s' => if f c then TrimLeftFunc f s' else s
  end.

Fixpoint TrimRightFunc (f : ascii -> bool) (s : string) : string :=
  match s with
  | "" => ""
  | String c s' =>
      match TrimRightFunc f s' with
      | "" => if f c then "" else String c ""
      | t => String c t
      end
  end.

Definition TrimSpace (s : string) : string :=
  TrimRightFunc isSpace (TrimLeftFunc isSpace s).

Fixpoint inCutset (cutset : string) (c : ascii) : bool :=
  match cutset with
  | "" => false
  | String d rest => (c =? d)%char || inCutset rest c
  end.

Definition TrimLeft (s cutset : string) : string :=
  TrimLeftFunc (inCutset cutset) s.

Definition Trim (s cutset : string) : string :=
  TrimRightFunc (inCutset cutset) (TrimLeftFunc (inCutset cutset) s).

Definition upperByte (c : ascii) : ascii :=
  let n := nat_of_ascii c in
  if (97 <=? n)%nat && (n <=? 122)%nat then ascii_of_nat (n - 32) else c.

Fixpoint ToUpper (s : string) : string :=
  match s with
  | "" => ""
  | String c s' => String (upperByte c) (ToUpper s')
  end.

Definition lowerByte (c : ascii) : ascii :=
  let n := nat_of_ascii c in
  if (65 <=? n)%nat && (n <=? 90)%nat then ascii_of_nat (n + 32) else c.

Fixpoint ToLower (s : string) : string :=
  match s with
  | "" => ""
  | String c s' => String (lowerByte c) (ToLower s')
  end.

Fixpoint HasPrefix (s p : string) : bool :=
  match p, s with
  | "", _ => true
  | String _ _, "" => false
  | String d p', String c s' => (c =? d)%char && HasPrefix s' p'
  end.

Fixpoint dropBytes (n : nat) (s : string) : string :=
  match n, s with
  | O, _ => s
  | S _, "" => ""
  | S k, String _ s' => dropBytes k s'
  end.

Fixpoint takeBytes (n : nat) (s : string) : string :=
  match n, s with
  | O, _ => ""
  | S _, "" => ""
  | S k, String c s' => String c (takeBytes k s')
  end.

Definition TrimPrefix (s p : string) : string :=
  if HasPrefix s p then dropBytes (String.length p) s else s.

Definition HasSuffix (s suf : string) : bool :=
  (String.length suf <=? String.length s)%nat &&
  String.eqb (dropBytes (String.length s - String.length suf) s) suf.

Definition TrimSuffix (s suf : string) : string :=
  if HasSuffix s suf then takeBytes (String.length s - String.length suf) s else s.

(** [strings.Split(s, sep)] for a separator of one byte, the only kind this
    program uses: the pieces between the separators, at least one piece. *)
Fixpoint splitAt (sep : ascii) (s : string) : string * list string :=
  match s with
  | "" => ("", [])
  | String c s' =>
      let (x, xs) := splitAt sep s' in
      if (c =? sep)%char then ("", x :: xs) else (String c x, xs)
  end.

Definition Split (s : string) (sep : ascii) : list string :=
  let (x, xs) := splitAt sep s in x :: xs.

(** [strings.Join]. *)
Fixpoint Join (elems : list string) (sep : string) : string :=
  match elems with
  | [] => ""
  | [x] => x
  | x :: rest => x ++ sep ++ Join rest sep
  end.

(** [strings.ReplaceAll(s, old, new)] for one-byte [old] and [new]. *)
Fixpoint ReplaceAll (s : string) (old new : ascii) : string :=
  match s with
  | "" => ""
  | String c s' => String (if (c =? old)%char then new else c) (ReplaceAll s' old new)
  end.

(** [strings.Index]: the position of the first occurrence, [None] for -1. *)
Fixpoint Index (s sub : string) : option nat :=
  if HasPrefix s sub then Some O
  else match s with
       | "" => None
       | String _ s' => option_map S (Index s' sub)
       end.

(** Every byte of the string satisfies [f]. *)
Fixpoint allBytes (f : ascii -> bool) (s : string) : bool :=
  match s with
  | "" => true
  | String c s' => f c && allBytes f s'
  end.



End GoStrings.

Import GoStrings.

(** ** Package [path/filepath] (Unix) *)

Module Filepath.

Definition Separator : ascii := "/".

Definition IsAbs (path : string) : bool := HasPrefix path "/".

(** No volume names on Unix. *)
Definition VolumeName (path : string) : string := "".

(** The separator is already a slash. *)
Definition FromSlash (path : string) : string := path.
Definition ToSlash (path : string) : string := path.

(** One step of [Clean]'s scan.  [out] holds the elements written so far, the
    most recent first.  A [..] removes the last element when there is one to
    backtrack over; otherwise it is kept when the path is not rooted and
    dropped when it is. *)
Definition cleanStep (rooted : bool) (out : list string) (elem : string) : list string :=
  if (elem =? "") || (elem =? ".") then out
  else if elem =? ".." then
    match out with
    | top :: rest =>
        if top =? ".." then (if rooted then out else ".." :: out) else rest
    | [] => if rooted then [] else [".."]
    end
  else elem :: out.

Definition cleanElems (rooted : bool) (elems : list string) : list string :=
  rev (fold_left (cleanStep rooted) elems []).

(** [filepath.Clean]: the shortest equivalent path.  The empty path becomes
    [.]; a rooted path keeps its leading slash. *)
Definition Clean (path : string) : string :=
  if path =? "" then "."
  else
    let rooted := IsAbs path in
    let body := GoStrings.Join (cleanElems rooted (Split path "/")) "/" in
    if rooted then "/" ++ body
    else if body =? "" then "." else body.

(** [filepath.Join]: leading empty elements are ignored, the rest is joined
    with the separator and cleaned; all empty gives the empty string. *)
Fixpoint Join (elem : list string) : string :=
  match elem with
  | [] => ""
  | e :: rest => if e =? "" then Join rest else Clean (GoStrings.Join elem "/")
  end.

Section WorkingDirectory.

(** The outcome of [os.Getwd]. *)
Variable Getwd : result string.

(** [filepath.Abs]. *)
Definition Abs (path : string) : result string :=
  if IsAbs path then Ok (Clean path)
  else match Getwd with
       | Err e => Err e
       | Ok wd => Ok (Join [wd; path])
       end.

End WorkingDirectory.

(** The elements [Rel] walks over, for a cleaned path with its volume removed:
    none for the empty path, the single empty element for the root. *)
Definition relElems (p : string) : list string :=
  if p =? "" then [] else if p =? "/" then [""] else Split p "/".

(** Drop the leading elements the two paths share. *)
Fixpoint dropCommon (bs ts : list string) : list string * list string :=
  match bs, ts with
  | b :: bs', t :: ts' => if b =? t then dropCommon bs' ts' else (bs, ts)
  | _, _ => (bs, ts)
  end.

(** [filepath.Rel(basepath, targpath)]. *)
Definition Rel (basepath targpath : string) : result string :=
  let base := Clean basepath in
  let targ := Clean targpath in
  if targ =? base then Ok "."
  else
    let base := if base =? "." then "" else base in
    if negb (Bool.eqb (HasPrefix base "/") (HasPrefix targ "/")) then
      Err ("Rel: can't make " ++ targpath ++ " relative to " ++ basepath)
    else
      let (bs, ts) := dropCommon (relElems base) (relElems targ) in
      match bs, ts with
      | b :: _, _ :: _ =>
          if b =? ".." then
            Err ("Rel: can't make " ++ targpath ++ " relative to " ++ basepath)
          else Ok (GoStrings.Join (map (fun _ => "..") bs ++ ts) "/")
      | _ :: _, [] => Ok (GoStrings.Join (map (fun _ => "..") bs) "/")
      | [], _ => Ok (GoStrings.Join ts "/")
      end.

End Filepath.

(** ** Package [config] *)

Module Config.

Record Config := {
  Addr : string;
  DataDir : string;
  HostDataDir : string
}.

Definition ReposDir (c : Config) : string := Filepath.Join [DataDir c; "repos"].

End Config.

(** ** The records of package [store] *)

Module Store.

Definition JobStatusQueued := "queued".
Definition JobStatusRunning := "running".
Definition JobStatusSucceeded := "succeeded".
Definition JobStatusFailed := "failed".

Definition JobTypeDeploy := "deploy".
Definition JobTypeStart := "start".
Definition JobTypeStop := "stop".
Definition JobTypePause := "pause".
Definition JobTypeUnpause := "unpause".
Definition JobTypeDelete := "delete".

Definition ProjectStatusUnknown := "unknown".
Definition ProjectStatusRunning := "running".
Definition ProjectStatusPaused := "paused".
Definition ProjectStatusStopped := "stopped".
Definition ProjectStatusFailed := "failed".
Definition ProjectStatusDeleted := "deleted".
Definition ProjectStatusDeploying := "deploying".

(** A row of table [projects]. *)
Record Project := {
  ID : string;
  Name : string;
  GitURL : string;
  GitRef : string;
  RepoSubdir : string;
  DeployType : string;
  ComposeFile : string;
  ComposeService : string;
  DockerfilePath : string;
  DockerfileContent : string;
  ComposeContent : string;
  HostPort : Z;
  ContainerPort : Z;
  LastStatus : string;
  LastStatusAt : option Z;
  DeletedAt : option Z;
  CreatedAt : Z;
  UpdatedAt : Z
}.

(** A row of table [jobs]. *)
Record Job := {
  JobID : string;
  ProjectID : string;
  Type_ : string;
  Status : string;
  CurrentStep : string;
  Log : string;
  Error : string;
  RequestedAt : Z;
  StartedAt : option Z;
  FinishedAt : option Z
}.

End Store.

(** ** Package [workspace]: the path guard *)

Module Workspace.

Import Config Store.

Definition RepoDir (cfg : Config) (projectID : string) : string :=
  Filepath.Join [ReposDir cfg; projectID].

Section WorkingDirectory.

Variable Getwd : result string.

Definition SafeJoin (base rel : string) : result string :=
  if base =? "" then Err "base is required"
  else
    let rel := TrimSpace rel in
    if (rel =? "") || (rel =? ".") then Ok (Filepath.Clean base)
    else
      let normalized := ReplaceAll rel "\" "/" in
      if existsb (fun part => part =? "..") (Split normalized "/") then
        Err "invalid path: contains '..'"
      else
        let relOS := Filepath.FromSlash normalized in
        if Filepath.IsAbs relOS || negb (Filepath.VolumeName relOS =? "") then
          Err "invalid path: must be relative"
        else
          let joined := Filepath.Join [base; relOS] in
          match Filepath.Abs Getwd base with
          | Err e => Err e
          | Ok absBase =>
              match Filepath.Abs Getwd joined with
              | Err e => Err e
              | Ok absJoined =>
                  match Filepath.Rel absBase absJoined with
                  | Err e => Err e
                  | Ok relToBase =>
                      if (relToBase =? "..") || HasPrefix relToBase "../" then
                        Err "invalid path: escapes base dir"
                      else Ok joined
                  end
              end
          end.

Definition WorkDir (cfg : Config) (project : Project) : result string :=
  let repoDir := RepoDir cfg (ID project) in
  if RepoSubdir project =? "" then Ok repoDir
  else SafeJoin repoDir (RepoSubdir project).

Definition HostWorkDir (cfg : Config) (project : Project) : result string :=
  if HostDataDir cfg =? "" then Ok ""
  else
    let hostRepoDir := Filepath.Join [HostDataDir cfg; "repos"; ID project] in
    if RepoSubdir project =? "" then Ok hostRepoDir
    else SafeJoin hostRepoDir (RepoSubdir project).

End WorkingDirectory.

End Workspace.

(** ** Package [api]: the port parsers *)

Module Ports.

(** Go's [int] on the 64-bit targets: the value of an arithmetic result after
    wrap-around. *)
Definition wrap64 (z : Z) : Z := ((z + 2 ^ 63) mod 2 ^ 64 - 2 ^ 63)%Z.

Definition isDigit (ch : ascii) : bool :=
  (48 <=? nat_of_ascii ch)%nat && (nat_of_ascii ch <=? 57)%nat.

Definition digitVal (ch : ascii) : Z := (Z.of_nat (nat_of_ascii ch) - 48)%Z.

(** The loop [for _, ch := range s { if ch >= '0' && ch <= '9' { port = port*10 + int(ch-'0') } }]
    started from [port]. *)
Fixpoint digitsLoop (port : Z) (s : string) : Z :=
  match s with
  | "" => port
  | String ch s' =>
      if isDigit ch then digitsLoop (wrap64 (port * 10 + digitVal ch)) s'
      else digitsLoop port s'
  end.

Definition validPort (port : Z) : bool := ((0 <? port) && (port <=? 65535))%Z.

Definition newline : ascii := "010".

(** The body of the loop of [parseDockerfilePort] over the lines. *)
Fixpoint dockerfileLines (lines : list string) : Z :=
  match lines with
  | [] => 0
  | line :: rest =>
      let line := TrimSpace line in
      let upper := ToUpper line in
      if HasPrefix upper "EXPOSE " then
        let portStr := TrimSpace (TrimPrefix upper "EXPOSE ") in
        let portStr := hd "" (Split portStr "/") in
        let portStr := hd "" (Split portStr " ") in
        let port := digitsLoop 0 portStr in
        if validPort port then port else dockerfileLines rest
      else dockerfileLines rest
  end.

Definition parseDockerfilePort (content : string) : Z :=
  dockerfileLines (Split content newline).

Definition composeKeywords : list string :=
  ["ports"; "volumes"; "environment"; "depends_on"; "networks";
   "build"; "image"; "container_name"; "restart"; "command";
   "entrypoint"; "labels"; "expose"; "healthcheck"; "logging";
   "deploy"; "configs"; "secrets"; "ulimits"; "sysctls"].

Definition isComposeKeyword (name : string) : bool :=
  existsb (fun kw => name =? kw) composeKeywords.

(** The flags of the scan of [parseComposePort]. *)
Record scanState := {
  inServices : bool;
  inService : bool;
  inPorts : bool;
  serviceIndent : Z
}.

Definition initialScan : scanState :=
  {| inServices := false; inService := false; inPorts := false; serviceIndent := -1 |}.

(** The cut set handed to [strings.Trim]: the double and the single quote. *)
Definition quoteCutset : string := String (ascii_of_nat 34) "'".

(** The pair a list entry gives when both its values are ports. *)
Definition entryPorts (trimmed : string) : option (Z * Z) :=
  let portStr := TrimSpace (TrimPrefix trimmed "-") in
  let portStr := Trim portStr quoteCutset in
  match Split portStr ":" with
  | p0 :: p1 :: _ =>
      let hostPortStr := hd "" (Split p0 "/") in
      let containerPortStr := hd "" (Split p1 "/") in
      let hp := digitsLoop 0 hostPortStr in
      let cp := digitsLoop 0 containerPortStr in
      if validPort hp && validPort cp then Some (hp, cp) else None
  | _ => None
  end.

(** The cut set of the indentation: space and tab. *)
Definition spaceTab : string := String " " (String "009" "").

Definition indentOf (line : string) : Z :=
  (Z.of_nat (String.length line) - Z.of_nat (String.length (TrimLeft line spaceTab)))%Z.

(** What one line does to the scan: go on with new flags, stop ([break]), or
    return a pair. *)
Inductive lineOutcome :=
| Continue (st : scanState)
| Break
| Return (hostPort containerPort : Z).

(** The body of the loop for a line that is neither blank nor a comment, given
    the trimmed line and its indentation. *)
Definition lineStep (serviceName : string) (st : scanState) (trimmed : string) (indent : Z)
    : lineOutcome :=
  if trimmed =? "services:" then
    Continue {| inServices := true; inService := inService st;
                inPorts := inPorts st; serviceIndent := -1 |}
  else if inService st && (trimmed =? "ports:") then
    Continue {| inServices := inServices st; inService := inService st;
                inPorts := true; serviceIndent := serviceIndent st |}
  else
    match (if inPorts st && HasPrefix trimmed "-" then entryPorts trimmed else None) with
    | Some (hp, cp) => Return hp cp
    | None =>
        let inPorts1 := if inPorts st && negb (HasPrefix trimmed "-") then false else inPorts st in
        let st1 := {| inServices := inServices st; inService := inService st;
                      inPorts := inPorts1; serviceIndent := serviceIndent st |} in
        let svcName := TrimSuffix trimmed ":" in
        let serviceLine :=
          inServices st && HasSuffix trimmed ":" && (0 <? indent)%Z && (indent <=? 4)%Z in
        if serviceLine && isComposeKeyword svcName then Continue st1
        else if serviceLine && ((serviceName =? "") || (svcName =? serviceName)) then
          Continue {| inServices := inServices st; inService := true;
                      inPorts := false; serviceIndent := indent |}
        else if inService st1 && (0 <=? serviceIndent st1)%Z && (indent <=? serviceIndent st1)%Z
                && negb (HasPrefix trimmed "-") then
          if negb (serviceName =? "") then Break
          else Continue {| inServices := inServices st; inService := false;
                           inPorts := false; serviceIndent := serviceIndent st |}
        else Continue st1
    end.

Definition scanLine (serviceName : string) (st : scanState) (line : string) : lineOutcome :=
  let trimmed := TrimSpace line in
  if (trimmed =? "") || HasPrefix trimmed "#" then Continue st
  else lineStep serviceName st trimmed (indentOf line).

Fixpoint scanLines (serviceName : string) (st : scanState) (lines : list string) : Z * Z :=
  match lines with
  | [] => (0, 0)%Z
  | line :: rest =>
      match scanLine serviceName st line with
      | Continue st' => scanLines serviceName st' rest
      | Break => (0, 0)%Z
      | Return hp cp => (hp, cp)
      end
  end.

Definition parseComposePort (content serviceName : string) : Z * Z :=
  if content =? "" then (0, 0)%Z
  else scanLines serviceName initialScan (Split content newline).

End Ports.

(** ** Package [engine]: git checkout *)

Module Git.

Definition isHexDigit (c : ascii) : bool :=
  let n := nat_of_ascii c in
  ((48 <=? n) && (n <=? 57) || (97 <=? n) && (n <=? 102) || (65 <=? n) && (n <=? 70))%nat.

(** The regular expression [\A[0-9a-fA-F]{40}\z]. *)
Definition hex40 (ref : string) : bool :=
  (String.length ref =? 40)%nat && allBytes isHexDigit ref.

(** [plumbing.NewHash]: the hash a hexadecimal string denotes, here its
    lower-case spelling. *)
Definition NewHash (s : string) : string := ToLower s.

Definition NewRemoteReferenceName (remote name : string) : string :=
  "refs/remotes/" ++ remote ++ "/" ++ name.
Definition NewTagReferenceName (name : string) : string := "refs/tags/" ++ name.
Definition NewBranchReferenceName (name : string) : string := "refs/heads/" ++ name.

(** What [checkoutRef] did: the hash handed to [Worktree.Checkout], if any, and
    the error returned. *)
Record checkoutResult := {
  checkedOut : option string;
  checkoutErr : option string
}.

Section Repository.

(** The repository, as far as [checkoutRef] looks at it. *)
Variable Worktree : option string.               (* the error of [repo.Worktree()] *)
Variable Reference : string -> option string.    (* [repo.Reference(name, true)]: the hash, when [err == nil] *)
Variable ResolveRevision : string -> option string.
Variable Checkout : string -> option string.     (* the error of [wt.Checkout] of a hash *)
Variable Quote : string -> string.               (* the verb [%q] *)

Definition doCheckout (h : string) : checkoutResult :=
  {| checkedOut := Some h; checkoutErr := Checkout h |}.

Fixpoint tryReferences (names : list string) : option string :=
  match names with
  | [] => None
  | name :: rest =>
      match Reference name with
      | Some h => Some h
      | None => tryReferences rest
      end
  end.

Fixpoint tryRevisions (revs : list string) : option string :=
  match revs with
  | [] => None
  | rev :: rest =>
      match ResolveRevision rev with
      | Some h => Some h
      | None => tryRevisions rest
      end
  end.

Definition checkoutRef (ref : string) : checkoutResult :=
  if ref =? "" then {| checkedOut := None; checkoutErr := None |}
  else
    match Worktree with
    | Some e => {| checkedOut := None; checkoutErr := Some e |}
    | None =>
        if hex40 ref then doCheckout (NewHash ref)
        else
          let candidates :=
            [ref; NewRemoteReferenceName "origin" ref;
             NewTagReferenceName ref; NewBranchReferenceName ref] in
          match tryReferences candidates with
          | Some h => doCheckout h
          | None =>
              let revCandidates :=
                [ref; "origin/" ++ ref; "refs/remotes/origin/" ++ ref;
                 "refs/tags/" ++ ref; "refs/heads/" ++ ref] in
              match tryRevisions revCandidates with
              | Some h => doCheckout h
              | None =>
                  {| checkedOut := None;
                     checkoutErr := Some ("unknown git_ref: " ++ Quote ref) |}
              end
          end
    end.

End Repository.

End Git.

(** ** Package [engine]: compose orchestration *)

Module Compose.

Inductive DeployType := DeployTypeDockerfile | DeployTypeCompose.

Definition ResolveDeployType (deployType composeFile : string) : DeployType :=
  let t := ToLower (TrimSpace deployType) in
  if t =? "compose" then DeployTypeCompose
  else if t =? "dockerfile" then DeployTypeDockerfile
  else if negb (TrimSpace composeFile =? "") then DeployTypeCompose
  else DeployTypeDockerfile.

Record ComposeSpec := {
  ProjectID : string;
  WorkDir : string;
  HostWorkDir : string;
  ComposeFile : string;
  ComposeService : string
}.

Definition isAlnum (c : ascii) : bool :=
  let n := nat_of_ascii c in
  ((48 <=? n) && (n <=? 57) || (97 <=? n) && (n <=? 122) || (65 <=? n) && (n <=? 90))%nat.

Definition isNameByte (c : ascii) : bool :=
  isAlnum c || (c =? "_")%char || (c =? ".")%char || (c =? "-")%char.

(** The regular expression [^[a-zA-Z0-9][a-zA-Z0-9_.-]*$]. *)
Definition composeServiceRe (s : string) : bool :=
  match s with
  | "" => false
  | String c rest => isAlnum c && allBytes isNameByte rest
  end.

Definition parseComposeServices (serviceStr : string) : list string :=
  let serviceStr := TrimSpace serviceStr in
  if serviceStr =? "" then []
  else
    fold_left
      (fun services s =>
         let s := TrimSpace s in
         if negb (s =? "") then (services ++ [s])%list else services)
      (Split serviceStr ",") [].

Definition normalizeComposeFile (composeFile projectID : string) : string :=
  let normalized := ReplaceAll composeFile "\" "/" in
  match Index normalized (projectID ++ "/") with
  | Some idx => dropBytes (idx + String.length projectID + 1) normalized
  | None => composeFile
  end.

(** A [docker] command line, with the directory it runs in. *)
Record Command := {
  Args : list string;
  Dir : string
}.

Section Process.

(** The temporary file [writeComposeOverride] creates for a list of services:
    its name, or the error of creating or writing it. *)
Variable writeComposeOverride : string -> list string -> result string.
(** [cmd.CombinedOutput()]: the output and the error of the process. *)
Variable CombinedOutput : Command -> string * option string.

(** The first service name the pattern refuses. *)
Fixpoint firstInvalid (services : list string) : option string :=
  match services with
  | [] => None
  | svc :: rest => if negb (composeServiceRe svc) then Some svc else firstInvalid rest
  end.

(** The command line [runComposeUpStop] builds, when it gets that far. *)
Definition composeCommand (spec : ComposeSpec) (args : list string) : result Command :=
  if ProjectID spec =? "" then Err "project id is required"
  else if WorkDir spec =? "" then Err "work dir is required"
  else if TrimSpace (ComposeFile spec) =? "" then Err "compose_file is required"
  else
    let services := parseComposeServices (ComposeService spec) in
    match firstInvalid services with
    | Some svc => Err ("invalid compose_service: " ++ svc)
    | None =>
        let composeFile := normalizeComposeFile (ComposeFile spec) (ProjectID spec) in
        let composeFile :=
          if negb (Filepath.IsAbs composeFile)
          then Filepath.Join [WorkDir spec; Filepath.FromSlash composeFile]
          else composeFile in
        let projectName := "last-deploy-" ++ ProjectID spec in
        let cmdArgs := ["compose"; "-p"; projectName; "-f"; composeFile] in
        let withOverride :=
          if (0 <? length services)%nat then
            match writeComposeOverride (ProjectID spec) services with
            | Err e => Err e
            | Ok override => Ok (cmdArgs ++ ["-f"; override])%list
            end
          else Ok cmdArgs in
        match withOverride with
        | Err e => Err e
        | Ok cmdArgs =>
            Ok {| Args := ((cmdArgs ++ args) ++ services)%list; Dir := WorkDir spec |}
        end
    end.

Definition runComposeUpStop (spec : ComposeSpec) (args : list string) : option string :=
  match composeCommand spec args with
  | Err e => Some e
  | Ok cmd =>
      match CombinedOutput cmd with
      | (out, Some e) =>
          Some ("docker " ++ GoStrings.Join (Args cmd) " " ++ ": " ++ e ++ ": " ++ TrimSpace out)
      | (_, None) => None
      end
  end.

Definition ComposeUp (spec : ComposeSpec) : option string := runComposeUpStop spec ["up"; "-d"].
Definition ComposeStop (spec : ComposeSpec) : option string := runComposeUpStop spec ["stop"].
Definition ComposePause (spec : ComposeSpec) : option string := runComposeUpStop spec ["pause"].
Definition ComposeUnpause (spec : ComposeSpec) : option string := runComposeUpStop spec ["unpause"].

End Process.

End Compose.

(** ** Package [jobs]: the queue and the worker *)

Module Jobs.

Import Config Store.

Definition nl : string := String "010" "".

(** [%d] of a non-negative count. *)
Definition Itoa (n : nat) : string := NilZero.string_of_uint (Nat.to_uint n).

(** The calls the worker makes on its collaborators: the statements it sends
    to the record store and the operations on git, the file system, the
    compose command and the container engine. *)
Inductive Event :=
| SqlSetJobRunning (id step : string)
| SqlSetJobStep (id step : string)
| SqlAppendJobLog (id line : string)
| SqlSetJobFailed (id msg : string)
| SqlSetJobSucceeded (id : string)
| SqlSetProjectStatus (id status : string)
| SqlMarkProjectDeleted (id : string)
| GitCloneRepo (url ref destDir : string)
| OsWriteFile (name data : string)
| OsRemoveAll (path : string)
| ExecDocker (cmd : Compose.Command)
| DockerContainerStop (id : string)
| DockerContainerRemove (id : string)
| DockerNetworkRemove (id : string)
| DockerImageRemove (tag : string)
| DockerBuildProjectImage (projectID contextDir dockerfilePath : string)
| DockerRunProjectContainer (projectID : string) (hostPort containerPort : Z)
| DockerStartProjectContainers (projectID : string)
| DockerStopProjectContainers (projectID : string)
| DockerPauseProjectContainers (projectID : string)
| DockerUnpauseProjectContainers (projectID : string).

(** The record store (tables [jobs] and [projects], by primary key) and the
    calls made so far, the most recent last. *)
Record World := {
  jobs : gmap string Job;
  projects : gmap string Project;
  trace : list Event
}.

(** What the environment answers.  The clock is read as one instant.  The
    worker discards the error of every statement it sends to the record store
    but the one of [MarkProjectDeleted], which [delete] returns: that one is
    an answer of the environment, the others are taken to succeed. *)
Record Env := {
  cfg : Config;
  Getwd : result string;
  now : Z;
  nowRFC3339 : string;
  Quote : string -> string;
  StatOk : string -> bool;
  CloneRepo : string -> string -> string -> option string;
  WriteFile : string -> string -> option string;
  NewDocker : option string;
  ContainerList : string -> result (list string);
  ContainerRemove : string -> option string;
  NetworkList : result (list (string * string));
  ImageRemove : string -> option string;
  BuildProjectImage : string -> string -> string -> option string;
  RunProjectContainer : string -> Z -> Z -> option string;
  StartProjectContainers : string -> result nat;
  StopProjectContainers : string -> result nat;
  PauseProjectContainers : string -> result nat;
  UnpauseProjectContainers : string -> result nat;
  writeComposeOverride : string -> list string -> result string;
  CombinedOutput : Compose.Command -> string * option string;
  ExecMarkProjectDeleted : string -> option string
}.

Definition emit (e : Event) (w : World) : World :=
  {| jobs := jobs w; projects := projects w; trace := trace w ++ [e] |}.

Definition updJob (f : Job -> Job) (id : string) (w : World) : World :=
  {| jobs := alter f id (jobs w); projects := projects w; trace := trace w |}.

(** [UPDATE projects ... WHERE id = ? AND deleted_at IS NULL]. *)
Definition updActiveProject (f : Project -> Project) (id : string) (w : World) : World :=
  {| jobs := jobs w;
     projects := alter (fun p => match DeletedAt p with None => f p | Some _ => p end) id (projects w);
     trace := trace w |}.

Definition ErrNotFound : string := "not found".

Definition GetJob (id : string) (w : World) : result Job :=
  match jobs w !! id with
  | Some j => Ok j
  | None => Err ErrNotFound
  end.

Definition GetProject (id : string) (w : World) : result Project :=
  match projects w !! id with
  | Some p => match DeletedAt p with None => Ok p | Some _ => Err ErrNotFound end
  | None => Err ErrNotFound
  end.

Section Worker.

Variable env : Env.

Definition SetJobRunning (id step : string) (w : World) : World :=
  updJob (fun j =>
    {| JobID := JobID j; ProjectID := ProjectID j; Type_ := Type_ j;
       Status := JobStatusRunning; CurrentStep := step; Log := Log j; Error := Error j;
       RequestedAt := RequestedAt j; StartedAt := Some (now env); FinishedAt := FinishedAt j |})
    id (emit (SqlSetJobRunning id step) w).

Definition SetJobStep (id step : string) (w : World) : World :=
  updJob (fun j =>
    {| JobID := JobID j; ProjectID := ProjectID j; Type_ := Type_ j;
       Status := Status j; CurrentStep := step; Log := Log j; Error := Error j;
       RequestedAt := RequestedAt j; StartedAt := StartedAt j; FinishedAt := FinishedAt j |})
    id (emit (SqlSetJobStep id step) w).

Definition AppendJobLog (id line : string) (w : World) : World :=
  updJob (fun j =>
    {| JobID := JobID j; ProjectID := ProjectID j; Type_ := Type_ j;
       Status := Status j; CurrentStep := CurrentStep j; Log := Log j ++ line; Error := Error j;
       RequestedAt := RequestedAt j; StartedAt := StartedAt j; FinishedAt := FinishedAt j |})
    id (emit (SqlAppendJobLog id line) w).

Definition SetJobFailed (id msg : string) (w : World) : World :=
  updJob (fun j =>
    {| JobID := JobID j; ProjectID := ProjectID j; Type_ := Type_ j;
       Status := JobStatusFailed; CurrentStep := CurrentStep j; Log := Log j; Error := msg;
       RequestedAt := RequestedAt j; StartedAt := StartedAt j; FinishedAt := Some (now env) |})
    id (emit (SqlSetJobFailed id msg) w).

Definition SetJobSucceeded (id : string) (w : World) : World :=
  updJob (fun j =>
    {| JobID := JobID j; ProjectID := ProjectID j; Type_ := Type_ j;
       Status := JobStatusSucceeded; CurrentStep := CurrentStep j; Log := Log j; Error := Error j;
       RequestedAt := RequestedAt j; StartedAt := StartedAt j; FinishedAt := Some (now env) |})
    id (emit (SqlSetJobSucceeded id) w).

Definition SetProjectStatus (id status : string) (w : World) : World :=
  updActiveProject (fun p =>
    {| ID := ID p; Name := Name p; GitURL := GitURL p; GitRef := GitRef p;
       RepoSubdir := RepoSubdir p; DeployType := DeployType p;
       ComposeFile := ComposeFile p; ComposeService := ComposeService p;
       DockerfilePath := DockerfilePath p; DockerfileContent := DockerfileContent p;
       ComposeContent := ComposeContent p; HostPort := HostPort p;
       ContainerPort := ContainerPort p;
       LastStatus := status; LastStatusAt := Some (now env); DeletedAt := DeletedAt p;
       CreatedAt := CreatedAt p; UpdatedAt := now env |})
    id (emit (SqlSetProjectStatus id status) w).

(** [MarkProjectDeleted] returns the error of its statement; a statement the
    database refuses changes no row. *)
Definition MarkProjectDeleted (id : string) (w : World) : option string * World :=
  let w := emit (SqlMarkProjectDeleted id) w in
  match ExecMarkProjectDeleted env id with
  | Some e => (Some e, w)
  | None =>
      (None,
       updActiveProject (fun p =>
         {| ID := ID p; Name := Name p; GitURL := GitURL p; GitRef := GitRef p;
            RepoSubdir := RepoSubdir p; DeployType := DeployType p;
            ComposeFile := ComposeFile p; ComposeService := ComposeService p;
            DockerfilePath := DockerfilePath p; DockerfileContent := DockerfileContent p;
            ComposeContent := ComposeContent p; HostPort := HostPort p;
            ContainerPort := ContainerPort p;
            LastStatus := ProjectStatusDeleted; LastStatusAt := Some (now env);
            DeletedAt := Some (now env);
            CreatedAt := CreatedAt p; UpdatedAt := now env |})
         id w)
  end.

(** *** The container engine, as far as the worker's cleanup goes *)

Definition imageTag (projectID : string) : string := "last-deploy:" ++ projectID.

(** The loop of [RemoveProjectContainers]: stop (error ignored), then remove;
    the first removal that fails ends the loop with its error. *)
Fixpoint removeContainers (ids : list string) (w : World) : option string * World :=
  match ids with
  | [] => (None, w)
  | c :: rest =>
      let w := emit (DockerContainerStop c) w in
      let w := emit (DockerContainerRemove c) w in
      match ContainerRemove env c with
      | Some e => (Some e, w)
      | None => removeContainers rest w
      end
  end.

Definition RemoveProjectContainers (projectID : string) (w : World) : option string * World :=
  if projectID =? "" then (Some "project id is required", w)
  else match ContainerList env projectID with
       | Err e => (Some e, w)
       | Ok containers => removeContainers containers w
       end.

(** The loop of [RemoveProjectNetworks]: every network whose name starts with
    the prefix is removed, errors ignored. *)
Fixpoint removeNetworks (prefix : string) (networks : list (string * string)) (w : World) : World :=
  match networks with
  | [] => w
  | (id, name) :: rest =>
      if HasPrefix name prefix
      then removeNetworks prefix rest (emit (DockerNetworkRemove id) w)
      else removeNetworks prefix rest w
  end.

Definition RemoveProjectNetworks (projectID : string) (w : World) : option string * World :=
  if projectID =? "" then (Some "project id is required", w)
  else
    let prefix := "last-deploy-" ++ projectID in
    match NetworkList env with
    | Err e => (Some e, w)
    | Ok networks => (None, removeNetworks prefix networks w)
    end.

Definition RemoveProjectImage (projectID : string) (w : World) : option string * World :=
  (ImageRemove env (imageTag projectID), emit (DockerImageRemove (imageTag projectID)) w).

(** *** The six operations *)

Definition WorkDir (project : Project) : result string :=
  Workspace.WorkDir (Getwd env) (cfg env) project.

(** [hostWorkDir, _ := workspace.HostWorkDir(...)]: the error is dropped. *)
Definition hostWorkDirOf (project : Project) : string :=
  match Workspace.HostWorkDir (Getwd env) (cfg env) project with
  | Ok d => d
  | Err _ => ""
  end.

Definition cloneProject (project : Project) (jobID : string) (w : World) : option string * World :=
  let repoDir := Workspace.RepoDir (cfg env) (ID project) in
  let w := SetJobStep jobID "sync_repo" w in
  let w :=
    if StatOk env (Filepath.Join [repoDir; ".git"])
    then AppendJobLog jobID ("fetching " ++ GitURL project ++ nl) w
    else AppendJobLog jobID ("cloning " ++ GitURL project ++ nl) w in
  (CloneRepo env (GitURL project) (GitRef project) repoDir,
   emit (GitCloneRepo (GitURL project) (GitRef project) repoDir) w).

(** [engine.ComposeUp] and its siblings: the command is run when it can be built. *)
Definition runCompose (spec : Compose.ComposeSpec) (args : list string) (w : World)
    : option string * World :=
  match Compose.composeCommand (writeComposeOverride env) spec args with
  | Err e => (Some e, w)
  | Ok cmd =>
      (Compose.runComposeUpStop (writeComposeOverride env) (CombinedOutput env) spec args,
       emit (ExecDocker cmd) w)
  end.

Definition composeStep (step : string) (args : list string) (project : Project) (jobID : string)
    (w : World) : option string * World :=
  let w := SetJobStep jobID step w in
  match WorkDir project with
  | Err e => (Some ("work dir: " ++ e), w)
  | Ok workDir =>
      runCompose
        {| Compose.ProjectID := ID project;
           Compose.WorkDir := workDir;
           Compose.HostWorkDir := hostWorkDirOf project;
           Compose.ComposeFile := ComposeFile project;
           Compose.ComposeService := ComposeService project |}
        args w
  end.

Definition composeUp := composeStep "compose_up" ["up"; "-d"].
Definition composeStop := composeStep "compose_stop" ["stop"].
Definition composePause := composeStep "compose_pause" ["pause"].
Definition composeUnpause := composeStep "compose_unpause" ["unpause"].

Definition dockerfileDeploy (project : Project) (jobID : string) (w : World)
    : option string * World :=
  match NewDocker env with
  | Some e => (Some e, w)
  | None =>
      let w := SetJobStep jobID "docker_cleanup" w in
      match RemoveProjectContainers (ID project) w with
      | (Some e, w) => (Some e, w)
      | (None, w) =>
          match WorkDir project with
          | Err e => (Some ("work dir: " ++ e), w)
          | Ok workDir =>
              let w := SetJobStep jobID "docker_build" w in
              let w := emit (DockerBuildProjectImage (ID project) workDir (DockerfilePath project)) w in
              match BuildProjectImage env (ID project) workDir (DockerfilePath project) with
              | Some e => (Some e, w)
              | None =>
                  let w := SetJobStep jobID "docker_run" w in
                  (RunProjectContainer env (ID project) (HostPort project) (ContainerPort project),
                   emit (DockerRunProjectContainer (ID project) (HostPort project) (ContainerPort project)) w)
              end
          end
      end
  end.

(** The two writes of literal configuration text in [deploy]. *)
Definition writeConfig (what : string) (content path workDir jobID : string) (logName : string)
    (w : World) : option string * World :=
  if negb (content =? "") && negb (path =? "") then
    let fullPath := Filepath.Join [workDir; path] in
    let w := emit (OsWriteFile fullPath content) w in
    match WriteFile env fullPath content with
    | Some e => (Some ("write " ++ what ++ ": " ++ e), w)
    | None => (None, AppendJobLog jobID ("wrote " ++ logName ++ " to " ++ path ++ nl) w)
    end
  else (None, w).

Definition deploy (project : Project) (jobID : string) (w : World) : option string * World :=
  let w := SetJobStep jobID "set_project_status" w in
  let w := SetProjectStatus (ID project) ProjectStatusDeploying w in
  match cloneProject project jobID w with
  | (Some e, w) => (Some e, SetProjectStatus (ID project) ProjectStatusFailed w)
  | (None, w) =>
      match WorkDir project with
      | Err e => (Some ("work dir: " ++ e), SetProjectStatus (ID project) ProjectStatusFailed w)
      | Ok workDir =>
          match writeConfig "dockerfile" (DockerfileContent project) (DockerfilePath project)
                            workDir jobID "Dockerfile" w with
          | (Some e, w) => (Some e, SetProjectStatus (ID project) ProjectStatusFailed w)
          | (None, w) =>
              match writeConfig "compose" (ComposeContent project) (ComposeFile project)
                                workDir jobID "docker-compose" w with
              | (Some e, w) => (Some e, SetProjectStatus (ID project) ProjectStatusFailed w)
              | (None, w) =>
                  let run :=
                    match Compose.ResolveDeployType (DeployType project) (ComposeFile project) with
                    | Compose.DeployTypeCompose => composeUp project jobID w
                    | Compose.DeployTypeDockerfile => dockerfileDeploy project jobID w
                    end in
                  match run with
                  | (Some e, w) => (Some e, SetProjectStatus (ID project) ProjectStatusFailed w)
                  | (None, w) => (None, SetProjectStatus (ID project) ProjectStatusRunning w)
                  end
              end
          end
      end
  end.

(** The shape shared by [start], [stop], [pause] and [unpause]. *)
Definition lifecycle
    (compose : Project -> string -> World -> option string * World)
    (step : string) (ev : string -> Event) (engineCall : string -> result nat)
    (verb status : string)
    (project : Project) (jobID : string) (w : World) : option string * World :=
  let run :=
    match Compose.ResolveDeployType (DeployType project) (ComposeFile project) with
    | Compose.DeployTypeCompose =>
        match cloneProject project jobID w with
        | (Some e, w) => (Some e, w)
        | (None, w) => compose project jobID w
        end
    | Compose.DeployTypeDockerfile =>
        match NewDocker env with
        | Some e => (Some e, w)
        | None =>
            let w := SetJobStep jobID step w in
            let w := emit (ev (ID project)) w in
            match engineCall (ID project) with
            | Err e => (Some e, w)
            | Ok n => (None, AppendJobLog jobID (verb ++ " " ++ Itoa n ++ " container(s)" ++ nl) w)
            end
        end
    end in
  match run with
  | (Some e, w) => (Some e, w)
  | (None, w) => (None, SetProjectStatus (ID project) status w)
  end.

Definition start :=
  lifecycle composeUp "docker_start" DockerStartProjectContainers
            (StartProjectContainers env) "started" ProjectStatusRunning.
Definition stop :=
  lifecycle composeStop "docker_stop" DockerStopProjectContainers
            (StopProjectContainers env) "stopped" ProjectStatusStopped.
Definition pause :=
  lifecycle composePause "docker_pause" DockerPauseProjectContainers
            (PauseProjectContainers env) "paused" ProjectStatusPaused.
Definition unpause :=
  lifecycle composeUnpause "docker_unpause" DockerUnpauseProjectContainers
            (UnpauseProjectContainers env) "unpaused" ProjectStatusRunning.

Definition delete (project : Project) (jobID : string) (w : World) : option string * World :=
  match NewDocker env with
  | Some e => (Some e, w)
  | None =>
      let w := SetJobStep jobID "docker_cleanup" w in
      let w := snd (RemoveProjectContainers (ID project) w) in
      let w := snd (RemoveProjectNetworks (ID project) w) in
      let w := snd (RemoveProjectImage (ID project) w) in
      let w := SetJobStep jobID "remove_repo" w in
      let w := emit (OsRemoveAll (Workspace.RepoDir (cfg env) (ID project))) w in
      let w := SetJobStep jobID "mark_deleted" w in
      MarkProjectDeleted (ID project) w
  end.

Definition fail (jobID : string) (err : option string) (w : World) : World :=
  let msg := match err with Some e => e | None => "unknown error" end in
  let w := AppendJobLog jobID (nowRFC3339 env ++ " error: " ++ msg ++ nl) w in
  SetJobFailed jobID msg w.

Definition runJob (jobID : string) (w : World) : World :=
  match GetJob jobID w with
  | Err _ => w
  | Ok job =>
      if negb (Status job =? JobStatusQueued) then w
      else
        let w := SetJobRunning jobID "init" w in
        let w := AppendJobLog jobID (nowRFC3339 env ++ " job started" ++ nl) w in
        match GetProject (ProjectID job) w with
        | Err e => fail jobID (Some ("load project: " ++ e)) w
        | Ok project =>
            let run :=
              if Type_ job =? JobTypeDeploy then deploy project jobID w
              else if Type_ job =? JobTypeStart then start project jobID w
              else if Type_ job =? JobTypeStop then stop project jobID w
              else if Type_ job =? JobTypePause then pause project jobID w
              else if Type_ job =? JobTypeUnpause then unpause project jobID w
              else if Type_ job =? JobTypeDelete then delete project jobID w
              else (Some ("unknown job type: " ++ Quote env (Type_ job)), w) in
            match run with
            | (Some e, w) => fail jobID (Some e) w
            | (None, w) =>
                let w := AppendJobLog jobID (nowRFC3339 env ++ " job finished" ++ nl) w in
                SetJobSucceeded jobID w
            end
        end
  end.

End Worker.

(** *** The queue *)

(** The buffered channel: the identifiers waiting in it and its capacity. *)
Record Queue := {
  ch : list string;
  capacity : nat
}.

Definition NewQueue (buffer : Z) : Queue :=
  {| ch := []; capacity := Z.to_nat (if (buffer <=? 0)%Z then 1%Z else buffer) |}.

(** [q.ch <- jobID] while no goroutine receives from the channel, as at start-up
    before the worker runs: the send completes when the buffer has room and
    otherwise never returns ([None]). *)
Definition Enqueue (q : Queue) (jobID : string) : option Queue :=
  if (length (ch q) <? capacity q)%nat
  then Some {| ch := ch q ++ [jobID]; capacity := capacity q |}
  else None.

(** The order of [ORDER BY requested_at ASC]. *)
Definition requestedBefore (a b : Job) : Prop := (RequestedAt a <= RequestedAt b)%Z.

#[global] Instance requestedBefore_dec : RelDecision requestedBefore :=
  fun a b => decide (RequestedAt a <= RequestedAt b)%Z.

(** [SELECT ... FROM jobs WHERE status = ? ORDER BY requested_at ASC]. *)
Definition ListJobsByStatus (w : World) (status : string) : list Job :=
  merge_sort requestedBefore
    (filter (fun j => Status j = status) (map snd (map_to_list (jobs w)))).

(** How a call at start-up ends: it returns, or it stays blocked in a send. *)
Inductive Completion :=
| Returned (err : option string) (q : Queue)
| Blocked (q : Queue).

Fixpoint enqueueEach (q : Queue) (js : list Job) : Completion :=
  match js with
  | [] => Returned None q
  | j :: rest =>
      match Enqueue q (JobID j) with
      | Some q' => enqueueEach q' rest
      | None => Blocked q
      end
  end.

Definition EnqueuePersisted (w : World) (q : Queue) : Completion :=
  enqueueEach q (ListJobsByStatus w JobStatusQueued).

End Jobs.

(** ** Notions the properties are stated with *)

Module Spec.

Import Store Jobs.

(** The status an event writes to a row of table [jobs], if it writes one. *)
Definition statusWrite (e : Event) : list (string * string) :=
  match e with
  | SqlSetJobRunning id _ => [(id, JobStatusRunning)]
  | SqlSetJobFailed id _ => [(id, JobStatusFailed)]
  | SqlSetJobSucceeded id => [(id, JobStatusSucceeded)]
  | _ => []
  end.

(** The job statuses written by a sequence of calls, in order. *)
Definition statusWrites (evs : list Event) : list (string * string) :=
  flat_map statusWrite evs.

(** The worker's operations below [runJob] leave the job statuses alone: the
    status of every job row is the same and no status was written. *)
Definition jobsQuiet (w w' : World) : Prop :=
  (forall id, Status <$> jobs w' !! id = Status <$> jobs w !! id) /\
  statusWrites (trace w') = statusWrites (trace w).

(** What marking a job does to the job statuses: one status is written, the
    row of the job (when there is one) has it, the other rows keep theirs. *)
Definition marked (id st : string) (w w' : World) : Prop :=
  statusWrites (trace w') = (statusWrites (trace w) ++ [(id, st)])%list /\
  (is_Some (jobs w !! id) -> Status <$> jobs w' !! id = Some st) /\
  (forall i, i <> id -> Status <$> jobs w' !! i = Status <$> jobs w !! i).





Section DeploySteps.

Variable env : Env.

(** The steps of the deploy operation, each with the error it ends the
    operation with, in the order of the specification: source synchronization,
    working-directory resolution, the two configuration files, and the launch
    (compose up, or image build and container run). *)












End DeploySteps.

(** The places [checkoutRef] looks a reference up, in the order of the
    specification: four reference names, then five revision expressions. *)
Inductive candidate :=
| ByReference (name : string)
| ByRevision (rev : string).

Definition candidatesOf (ref : string) : list candidate :=
  [ByReference ref;
   ByReference ("refs/remotes/origin/" ++ ref);
   ByReference ("refs/tags/" ++ ref);
   ByReference ("refs/heads/" ++ ref);
   ByRevision ref;
   ByRevision ("origin/" ++ ref);
   ByRevision ("refs/remotes/origin/" ++ ref);
   ByRevision ("refs/tags/" ++ ref);
   ByRevision ("refs/heads/" ++ ref)].



(** *** Containment of paths *)

(** The elements of a cleaned absolute path. *)
Definition pathElems (p : string) : list string :=
  List.filter (fun e => negb (e =? "")) (Split p "/").

Fixpoint isPrefixOf (l1 l2 : list string) : bool :=
  match l1, l2 with
  | [], _ => true
  | _ :: _, [] => false
  | a :: l1', b :: l2' => (a =? b) && isPrefixOf l1' l2'
  end.

(** [p] lies within [base]: made absolute, the elements of [base] are the
    first elements of [p]. *)
Definition within (getwd : result string) (base p : string) : bool :=
  match Filepath.Abs getwd base, Filepath.Abs getwd p with
  | Ok b, Ok q => isPrefixOf (pathElems b) (pathElems q)
  | _, _ => false
  end.









(** *** The Dockerfile port, declaratively *)










(** *** Compose texts of the usual layout *)



Definition dquote : string := String (ascii_of_nat 34) "".























(** The flags of the scan while it looks for the service, and inside it. *)
Definition searching : Ports.scanState :=
  {| Ports.inServices := true; Ports.inService := false;
     Ports.inPorts := false; Ports.serviceIndent := -1 |}.





Section Resolution.

Variable Reference : string -> option string.
Variable ResolveRevision : string -> option string.

Definition resolve (c : candidate) : option string :=
  match c with
  | ByReference name => Reference name
  | ByRevision rev => ResolveRevision rev
  end.

(** The hash of the first candidate that resolves. *)
Fixpoint firstResolved (cs : list candidate) : option string :=
  match cs with
  | [] => None
  | c :: rest =>
      match resolve c with
      | Some h => Some h
      | None => firstResolved rest
      end
  end.

End Resolution.

End Spec.

(** ** Sample data *)

Module Samples.

Import Store Jobs.

Definition queuedJob (i : nat) : Job :=
  {| JobID := "job-" ++ Itoa i; ProjectID := "p1"; Type_ := JobTypeStart;
     Status := JobStatusQueued; CurrentStep := ""; Log := ""; Error := "";
     RequestedAt := Z.of_nat i; StartedAt := None; FinishedAt := None |}.

(** A record store holding [n] queued jobs. *)
Definition backlog (n : nat) : World :=
  {| jobs := list_to_map (map (fun i => (JobID (queuedJob i), queuedJob i)) (seq 0 n));
     projects := ∅;
     trace := [] |}.

Definition sampleCfg : Config.Config :=
  {| Config.Addr := "127.0.0.1:8080"; Config.DataDir := "/data"; Config.HostDataDir := "" |}.

(** An environment in which every call succeeds. *)
Definition calmEnv : Env :=
  {| cfg := sampleCfg;
     Getwd := Ok "/app";
     now := 1700000000;
     nowRFC3339 := "2023-11-14T22:13:20Z";
     Quote := fun s => s;
     StatOk := fun _ => false;
     CloneRepo := fun _ _ _ => None;
     WriteFile := fun _ _ => None;
     NewDocker := None;
     ContainerList := fun _ => Ok ["c1"; "c2"];
     ContainerRemove := fun _ => None;
     NetworkList := Ok [("n1", "last-deploy-p1_default"); ("n2", "bridge")];
     ImageRemove := fun _ => None;
     BuildProjectImage := fun _ _ _ => None;
     RunProjectContainer := fun _ _ _ => None;
     StartProjectContainers := fun _ => Ok 1%nat;
     StopProjectContainers := fun _ => Ok 1%nat;
     PauseProjectContainers := fun _ => Ok 1%nat;
     UnpauseProjectContainers := fun _ => Ok 1%nat;
     writeComposeOverride := fun _ _ => Ok "/tmp/last-deploy-compose-1.yml";
     CombinedOutput := fun _ => ("", None);
     ExecMarkProjectDeleted := fun _ => None |}.


(** A Dockerfile project with literal Dockerfile text. *)
Definition dockerfileProject (dockerfilePath : string) : Project :=
  {| ID := "p1"; Name := "demo"; GitURL := "https://example.org/demo.git"; GitRef := "";
     RepoSubdir := ""; DeployType := "dockerfile"; ComposeFile := ""; ComposeService := "";
     DockerfilePath := dockerfilePath; DockerfileContent := "FROM alpine"; ComposeContent := "";
     HostPort := 8080; ContainerPort := 8080; LastStatus := ProjectStatusUnknown;
     LastStatusAt := None; DeletedAt := None; CreatedAt := 1; UpdatedAt := 1 |}.

Definition jobOf (type status : string) : Job :=
  {| JobID := "j1"; ProjectID := "p1"; Type_ := type; Status := status;
     CurrentStep := ""; Log := ""; Error := "";
     RequestedAt := 5; StartedAt := None; FinishedAt := None |}.

(** A store with one job and one project. *)
Definition storeOf (job : Job) (project : Project) : World :=
  {| jobs := {[ "j1" := job ]}; projects := {[ "p1" := project ]}; trace := [] |}.


End Samples.

(** * Properties *)

Section Examples.
Import Filepath.

Example TrimSpace_ex : TrimSpace "  a b	" = "a b".
Proof. reflexivity. Qed.

Example Split_ex : Split "web,,db," "," = ["web"; ""; "db"; ""].
Proof. reflexivity. Qed.

Example Split_empty_ex : Split "" "," = [""].
Proof. reflexivity. Qed.

Example suffix_ex : HasSuffix "web:" ":" = true /\ TrimSuffix "web:" ":" = "web".
Proof. split; reflexivity. Qed.

(** The documented results of Go's [Clean], [Join] and [Rel]. *)
Example Clean_ex :
  map Clean [""; "abc"; "abc/def"; "a/b/c"; "."; ".."; "../.."; "../../abc"; "/abc"; "/";
             "abc/"; "abc/def/"; "a/b/c/"; "./"; "../"; "../../"; "/abc/";
             "abc//def//ghi"; "//abc"; "///abc"; "//abc//"; "abc//";
             "abc/./def"; "/./abc/def"; "abc/.";
             "abc/def/ghi/../jkl"; "abc/def/../ghi/../jkl"; "abc/def/.."; "abc/def/../..";
             "/abc/def/../.."; "abc/def/../../.."; "/abc/def/../../.."; "abc/def/../../../ghi/jkl/../../../mno";
             "/../abc"; "abc/./../def"; "abc//./../def"; "abc/../../././../def"]
  = ["."; "abc"; "abc/def"; "a/b/c"; "."; ".."; "../.."; "../../abc"; "/abc"; "/";
     "abc"; "abc/def"; "a/b/c"; "."; ".."; "../.."; "/abc";
     "abc/def/ghi"; "/abc"; "/abc"; "/abc"; "abc";
     "abc/def"; "/abc/def"; "abc";
     "abc/def/jkl"; "abc/jkl"; "abc"; ".";
     "/"; ".."; "/"; "../../mno";
     "/abc"; "def"; "def"; "../../def"].
Proof. vm_compute. reflexivity. Qed.

Example Join_ex :
  map Join [[]; [""]; ["a"]; ["a"; "b"]; ["a"; ""]; [""; "b"]; ["/"; "a"]; ["/"; ""]; ["a/"; "b"]; ["a/"; ""]; [""; ""];
            ["/"; "a"; "b"]; ["//"; "a"]]
  = [""; ""; "a"; "a/b"; "a"; "b"; "/a"; "/"; "a/b"; "a"; "";
     "/a/b"; "/a"].
Proof. vm_compute. reflexivity. Qed.

Example Rel_ex :
  map (fun bt => Rel (fst bt) (snd bt))
      [("a/b", "a/b"); ("a/b/.", "a/b"); ("a/b", "a/b/c"); ("a/b/c", "a/b"); ("a/b", "a/c");
       ("a/b/c", "a/c/d"); ("a/b", "c/d"); ("a/b/c/d", "a/b"); ("../../a/b", "../../a/b/c/d");
       ("/a/b", "/a/b"); ("/a/b", "/a/b/c/d"); ("/a/b", "/"); ("/", "/a/c"); ("/ab/cd", "/ab/c");
       ("/a/b/c/d", "/a/b/x/y"); ("/..", "/a"); (".", "a/b"); (".", "..")]
  = [Ok "."; Ok "."; Ok "c"; Ok ".."; Ok "../c";
     Ok "../../c/d"; Ok "../../c/d"; Ok "../.."; Ok "c/d";
     Ok "."; Ok "c/d"; Ok "../.."; Ok "a/c"; Ok "../c";
     Ok "../../x/y"; Ok "a"; Ok "a/b"; Ok ".."].
Proof. vm_compute. reflexivity. Qed.

Example Rel_err_ex : is_err (Rel ".." ".") = true /\ is_err (Rel ".." "a") = true /\ is_err (Rel "a" "/a") = true.
Proof. vm_compute. auto. Qed.

End Examples.

(** ** The worker *)

Section WorkerFacts.

Import Store Jobs Spec.

Variable env : Env.

Lemma statusWrites_snoc evs e : statusWrites (evs ++ [e]) = (statusWrites evs ++ statusWrite e)%list.
Proof.
  unfold statusWrites. rewrite flat_map_app. simpl. now rewrite app_nil_r.
Qed.

Lemma jobsQuiet_refl w : jobsQuiet w w.
Proof. split; auto. Qed.

Lemma jobsQuiet_trans w1 w2 w3 : jobsQuiet w1 w2 -> jobsQuiet w2 w3 -> jobsQuiet w1 w3.
Proof.
  intros [H1 H2] [H3 H4]. split.
  - intros id. now rewrite H3, H1.
  - now rewrite H4, H2.
Qed.

Lemma jobsQuiet_emit w0 w e : statusWrite e = [] -> jobsQuiet w0 w -> jobsQuiet w0 (emit e w).
Proof.
  intros He [H1 H2]. split; simpl; auto.
  now rewrite statusWrites_snoc, He, app_nil_r.
Qed.

Lemma jobsQuiet_updJob w0 w f id :
  (forall j, Status (f j) = Status j) -> jobsQuiet w0 w -> jobsQuiet w0 (updJob f id w).
Proof.
  intros Hf [H1 H2]. split; simpl; auto.
  intros id'. rewrite lookup_alter. destruct (decide (id = id')) as [->|]; auto.
  rewrite <- H1. destruct (jobs w !! id'); simpl; auto. now rewrite Hf.
Qed.

Lemma jobsQuiet_updActiveProject w0 w f id :
  jobsQuiet w0 w -> jobsQuiet w0 (updActiveProject f id w).
Proof. intros [H1 H2]. split; simpl; auto. Qed.

Lemma jobsQuiet_SetJobStep w0 w id step : jobsQuiet w0 w -> jobsQuiet w0 (SetJobStep id step w).
Proof.
  intros H. unfold SetJobStep. apply jobsQuiet_updJob; auto. now apply jobsQuiet_emit.
Qed.

Lemma jobsQuiet_AppendJobLog w0 w id line : jobsQuiet w0 w -> jobsQuiet w0 (AppendJobLog id line w).
Proof.
  intros H. unfold AppendJobLog. apply jobsQuiet_updJob; auto. now apply jobsQuiet_emit.
Qed.

Lemma jobsQuiet_SetProjectStatus w0 w id st :
  jobsQuiet w0 w -> jobsQuiet w0 (SetProjectStatus env id st w).
Proof.
  intros H. unfold SetProjectStatus. apply jobsQuiet_updActiveProject. now apply jobsQuiet_emit.
Qed.

Lemma jobsQuiet_MarkProjectDeleted w0 w id :
  jobsQuiet w0 w -> jobsQuiet w0 (snd (MarkProjectDeleted env id w)).
Proof.
  intros H. unfold MarkProjectDeleted.
  destruct (ExecMarkProjectDeleted env id); cbn [snd].
  - now apply jobsQuiet_emit.
  - apply jobsQuiet_updActiveProject. now apply jobsQuiet_emit.
Qed.

Create HintDb quiet.

#[local] Hint Resolve jobsQuiet_refl jobsQuiet_SetJobStep jobsQuiet_AppendJobLog
  jobsQuiet_SetProjectStatus jobsQuiet_MarkProjectDeleted : quiet.

#[local] Hint Extern 2 (jobsQuiet _ (emit _ _)) => apply jobsQuiet_emit; [reflexivity |] : quiet.

(** Case analysis on every outcome the environment supplies. *)
Ltac split_outcomes :=
  repeat match goal with
         | |- context [match ?x with _ => _ end] => destruct x eqn:?
         | |- context [if ?b then _ else _] => destruct b eqn:?
         end; simpl in *.

Lemma jobsQuiet_cloneProject w0 w p jobID :
  jobsQuiet w0 w -> jobsQuiet w0 (snd (cloneProject env p jobID w)).
Proof. intros H. unfold cloneProject. simpl. split_outcomes; auto 6 with quiet. Qed.

Lemma jobsQuiet_runCompose w0 w spec args :
  jobsQuiet w0 w -> jobsQuiet w0 (snd (runCompose env spec args w)).
Proof. intros H. unfold runCompose. split_outcomes; auto with quiet. Qed.

Lemma jobsQuiet_composeStep w0 w step args p jobID :
  jobsQuiet w0 w -> jobsQuiet w0 (snd (composeStep env step args p jobID w)).
Proof.
  intros H. unfold composeStep. destruct (WorkDir env p); simpl; auto with quiet.
  apply jobsQuiet_runCompose. auto with quiet.
Qed.

Lemma jobsQuiet_removeContainers ids : forall w0 w,
  jobsQuiet w0 w -> jobsQuiet w0 (snd (removeContainers env ids w)).
Proof.
  induction ids as [|c rest IH]; intros w0 w H; simpl; auto.
  destruct (ContainerRemove env c); simpl; [| apply IH]; auto 6 with quiet.
Qed.

Lemma jobsQuiet_RemoveProjectContainers w0 w id :
  jobsQuiet w0 w -> jobsQuiet w0 (snd (RemoveProjectContainers env id w)).
Proof.
  intros H. unfold RemoveProjectContainers.
  destruct (id =? ""); simpl; auto.
  destruct (ContainerList env id); simpl; auto.
  now apply jobsQuiet_removeContainers.
Qed.

Lemma jobsQuiet_removeNetworks prefix nets : forall w0 w,
  jobsQuiet w0 w -> jobsQuiet w0 (removeNetworks prefix nets w).
Proof.
  induction nets as [|[id name] rest IH]; intros w0 w H; simpl; auto.
  destruct (HasPrefix name prefix); apply IH; auto with quiet.
Qed.

Lemma jobsQuiet_RemoveProjectNetworks w0 w id :
  jobsQuiet w0 w -> jobsQuiet w0 (snd (RemoveProjectNetworks env id w)).
Proof.
  intros H. unfold RemoveProjectNetworks.
  destruct (id =? ""); simpl; auto.
  destruct (NetworkList env); simpl; auto.
  now apply jobsQuiet_removeNetworks.
Qed.

Lemma jobsQuiet_RemoveProjectImage w0 w id :
  jobsQuiet w0 w -> jobsQuiet w0 (snd (RemoveProjectImage env id w)).
Proof. intros H. unfold RemoveProjectImage. simpl. auto with quiet. Qed.

Lemma jobsQuiet_dockerfileDeploy w0 w p jobID :
  jobsQuiet w0 w -> jobsQuiet w0 (snd (dockerfileDeploy env p jobID w)).
Proof.
  intros H. unfold dockerfileDeploy.
  destruct (NewDocker env); simpl; auto.
  pose proof (jobsQuiet_RemoveProjectContainers w0 (SetJobStep jobID "docker_cleanup" w) (ID p)
                ltac:(auto with quiet)) as HR.
  destruct (RemoveProjectContainers env (ID p) (SetJobStep jobID "docker_cleanup" w))
    as [[e|] w1]; simpl in *; auto.
  split_outcomes; auto 8 with quiet.
Qed.

Lemma jobsQuiet_writeConfig w0 w what content path workDir jobID logName :
  jobsQuiet w0 w ->
  jobsQuiet w0 (snd (writeConfig env what content path workDir jobID logName w)).
Proof. intros H. unfold writeConfig. split_outcomes; auto 6 with quiet. Qed.

#[local] Hint Resolve jobsQuiet_cloneProject jobsQuiet_composeStep jobsQuiet_dockerfileDeploy
  jobsQuiet_writeConfig jobsQuiet_RemoveProjectContainers jobsQuiet_RemoveProjectNetworks
  jobsQuiet_RemoveProjectImage : quiet.

Lemma jobsQuiet_deploy w0 w p jobID :
  jobsQuiet w0 w -> jobsQuiet w0 (snd (deploy env p jobID w)).
Proof.
  intros H. unfold deploy.
  set (wa := SetProjectStatus env (ID p) ProjectStatusDeploying (SetJobStep jobID "set_project_status" w)).
  assert (Ha : jobsQuiet w0 wa) by (subst wa; auto with quiet).
  clearbody wa.
  pose proof (jobsQuiet_cloneProject w0 wa p jobID Ha) as H1.
  destruct (cloneProject env p jobID wa) as [[e|] w1]; simpl in *; auto with quiet.
  destruct (WorkDir env p) as [workDir|e]; simpl; auto with quiet.
  pose proof (jobsQuiet_writeConfig w0 w1 "dockerfile" (DockerfileContent p) (DockerfilePath p)
                workDir jobID "Dockerfile" H1) as H2.
  destruct (writeConfig env "dockerfile" _ _ _ _ _ w1) as [[e|] w2]; simpl in *; auto with quiet.
  pose proof (jobsQuiet_writeConfig w0 w2 "compose" (ComposeContent p) (ComposeFile p)
                workDir jobID "docker-compose" H2) as H3.
  destruct (writeConfig env "compose" _ _ _ _ _ w2) as [[e|] w3]; simpl in *; auto with quiet.
  destruct (Compose.ResolveDeployType _ _).
  - pose proof (jobsQuiet_dockerfileDeploy w0 w3 p jobID H3) as H4.
    destruct (dockerfileDeploy env p jobID w3) as [[e|] w4]; simpl in *; auto with quiet.
  - pose proof (jobsQuiet_composeStep w0 w3 "compose_up" ["up"; "-d"] p jobID H3) as H4.
    unfold composeUp.
    destruct (composeStep env "compose_up" ["up"; "-d"] p jobID w3) as [[e|] w4];
      simpl in *; auto with quiet.
Qed.

Lemma jobsQuiet_lifecycle w0 w compose step ev engineCall verb status p jobID :
  (forall w0 w, jobsQuiet w0 w -> jobsQuiet w0 (snd (compose p jobID w))) ->
  (forall id, statusWrite (ev id) = []) ->
  jobsQuiet w0 w ->
  jobsQuiet w0 (snd (lifecycle env compose step ev engineCall verb status p jobID w)).
Proof.
  intros Hc Hev H. unfold lifecycle.
  destruct (Compose.ResolveDeployType _ _).
  - destruct (NewDocker env); simpl; auto.
    destruct (engineCall (ID p)); simpl.
    + apply jobsQuiet_SetProjectStatus, jobsQuiet_AppendJobLog, jobsQuiet_emit; auto with quiet.
    + apply jobsQuiet_emit; auto with quiet.
  - pose proof (jobsQuiet_cloneProject w0 w p jobID H) as H1.
    destruct (cloneProject env p jobID w) as [[e|] w1]; simpl in *; auto.
    pose proof (Hc w0 w1 H1) as H2.
    destruct (compose p jobID w1) as [[e|] w2]; simpl in *; auto with quiet.
Qed.

Lemma jobsQuiet_delete w0 w p jobID :
  jobsQuiet w0 w -> jobsQuiet w0 (snd (delete env p jobID w)).
Proof.
  intros H. unfold delete. destruct (NewDocker env); cbn [snd]; auto.
  apply jobsQuiet_MarkProjectDeleted. auto 12 with quiet.
Qed.

Lemma jobsQuiet_dispatch w0 w job p jobID :
  jobsQuiet w0 w ->
  jobsQuiet w0
    (snd (if Type_ job =? JobTypeDeploy then deploy env p jobID w
          else if Type_ job =? JobTypeStart then start env p jobID w
          else if Type_ job =? JobTypeStop then stop env p jobID w
          else if Type_ job =? JobTypePause then pause env p jobID w
          else if Type_ job =? JobTypeUnpause then unpause env p jobID w
          else if Type_ job =? JobTypeDelete then delete env p jobID w
          else (Some ("unknown job type: " ++ Quote env (Type_ job)), w))).
Proof.
  intros H.
  repeat match goal with |- context [if ?b then _ else _] => destruct b end;
    auto using jobsQuiet_deploy, jobsQuiet_delete;
    apply jobsQuiet_lifecycle; auto; intros; apply jobsQuiet_composeStep; auto.
Qed.

Lemma marked_updJob id st f ev w :
  statusWrite ev = [(id, st)] -> (forall j, Status (f j) = st) ->
  marked id st w (updJob f id (emit ev w)).
Proof.
  intros Hev Hf. repeat split; simpl.
  - now rewrite statusWrites_snoc, Hev.
  - intros [j Hj]. rewrite lookup_alter_eq, Hj. simpl. now rewrite Hf.
  - intros i Hi. now rewrite lookup_alter_ne.
Qed.

Lemma marked_quiet id st w1 w2 w3 : jobsQuiet w1 w2 -> marked id st w2 w3 -> marked id st w1 w3.
Proof.
  intros [H1 H2] (H3 & H4 & H5). repeat split.
  - now rewrite H3, H2.
  - intros Hs. apply H4. specialize (H1 id). destruct Hs as [j Hj]. rewrite Hj in H1.
    destruct (jobs w2 !! id); [eauto | discriminate].
  - intros i Hi. now rewrite H5, H1.
Qed.

Lemma quiet_marked id st w1 w2 w3 : marked id st w1 w2 -> jobsQuiet w2 w3 -> marked id st w1 w3.
Proof.
  intros (H3 & H4 & H5) [H1 H2]. repeat split.
  - now rewrite H2, H3.
  - intros Hs. now rewrite H1, H4.
  - intros i Hi. now rewrite H1, H5.
Qed.

Lemma marked_fail jobID err w :
  marked jobID JobStatusFailed w (fail env jobID err w).
Proof.
  unfold fail. eapply marked_quiet.
  - apply jobsQuiet_AppendJobLog, jobsQuiet_refl.
  - unfold SetJobFailed. now apply marked_updJob.
Qed.

Lemma marked_succeeded jobID line w :
  marked jobID JobStatusSucceeded w (SetJobSucceeded env jobID (AppendJobLog jobID line w)).
Proof.
  eapply marked_quiet.
  - apply jobsQuiet_AppendJobLog, jobsQuiet_refl.
  - unfold SetJobSucceeded. now apply marked_updJob.
Qed.

Lemma marked_running jobID step line w :
  marked jobID JobStatusRunning w (AppendJobLog jobID line (SetJobRunning env jobID step w)).
Proof.
  apply (quiet_marked _ _ w (SetJobRunning env jobID step w)).
  - unfold SetJobRunning. now apply marked_updJob.
  - apply jobsQuiet_AppendJobLog, jobsQuiet_refl.
Qed.

Lemma marked_twice id s1 s2 w1 w2 w3 :
  is_Some (jobs w1 !! id) ->
  marked id s1 w1 w2 -> marked id s2 w2 w3 ->
  statusWrites (trace w3) = (statusWrites (trace w1) ++ [(id, s1); (id, s2)])%list /\
  Status <$> jobs w3 !! id = Some s2 /\
  (forall i, i <> id -> Status <$> jobs w3 !! i = Status <$> jobs w1 !! i).
Proof.
  intros Hs (A1 & A2 & A3) (B1 & B2 & B3). repeat split.
  - rewrite B1, A1, <- app_assoc. reflexivity.
  - apply B2. specialize (A2 Hs). destruct (jobs w2 !! id); [eauto | discriminate].
  - intros i Hi. now rewrite B3, A3.
Qed.

(** The operations below [deploy] leave table [projects] alone, and their
    error is the one of the corresponding step. *)














(** *** The calls of the cleanup *)

Lemma called_emit e e' w : In e (trace w) \/ e = e' -> In e (trace (emit e' w)).
Proof. simpl. rewrite in_app_iff. simpl. intuition. Qed.

Lemma called_before_emit e e' w : In e (trace w) -> In e (trace (emit e' w)).
Proof. intros H. apply called_emit. auto. Qed.



Lemma called_removeContainers e ids : forall w,
  In e (trace w) -> In e (trace (snd (removeContainers env ids w))).
Proof.
  induction ids as [|c rest IH]; intros w H; simpl; auto.
  destruct (ContainerRemove env c); simpl; [| apply IH; simpl]; rewrite ?in_app_iff; auto.
Qed.

Lemma called_RemoveProjectContainers e id w :
  In e (trace w) -> In e (trace (snd (RemoveProjectContainers env id w))).
Proof.
  intros H. unfold RemoveProjectContainers.
  destruct (id =? ""); simpl; auto.
  destruct (ContainerList env id); simpl; auto using called_removeContainers.
Qed.









(** *** The calls the cleanup does not make *)








End WorkerFacts.

(** C3. A job identifier whose stored job is not [queued] (or is not stored at
    all) leaves the world as it is: no row changes and nothing is called.  A
    queued job is marked [running] and then [succeeded] or [failed], once each
    and in that order, and no other job's status changes. *)
Theorem runJob_only_queued (env : Jobs.Env) (w : Jobs.World) (jobID : string) :
  ((forall job, Jobs.jobs w !! jobID = Some job -> Store.Status job <> Store.JobStatusQueued) ->
   Jobs.runJob env jobID w = w) /\
  (forall job, Jobs.jobs w !! jobID = Some job -> Store.Status job = Store.JobStatusQueued ->
   exists fin,
     (fin = Store.JobStatusSucceeded \/ fin = Store.JobStatusFailed) /\
     Spec.statusWrites (Jobs.trace (Jobs.runJob env jobID w)) =
       (Spec.statusWrites (Jobs.trace w) ++ [(jobID, Store.JobStatusRunning); (jobID, fin)])%list /\
     Store.Status <$> Jobs.jobs (Jobs.runJob env jobID w) !! jobID = Some fin /\
     (forall id, id <> jobID ->
        Store.Status <$> Jobs.jobs (Jobs.runJob env jobID w) !! id =
        Store.Status <$> Jobs.jobs w !! id)).
Proof.
  split.
  - intros Hnq. unfold Jobs.runJob, Jobs.GetJob.
    destruct (Jobs.jobs w !! jobID) as [job|] eqn:Hj; auto.
    destruct (Store.Status job =? Store.JobStatusQueued) eqn:Hs; auto.
    apply String.eqb_eq in Hs. now destruct (Hnq job eq_refl).
  - intros job Hj Hs. unfold Jobs.runJob, Jobs.GetJob. rewrite Hj, Hs.
    rewrite String.eqb_refl. simpl.
    set (w1 := Jobs.AppendJobLog jobID _ (Jobs.SetJobRunning env jobID "init" w)).
    assert (H1 : Spec.marked jobID Store.JobStatusRunning w w1) by apply marked_running.
    assert (Hsome : is_Some (Jobs.jobs w !! jobID)) by eauto.
    clearbody w1.
    destruct (Jobs.GetProject (Store.ProjectID job) w1) as [p|e].
    + pose proof (jobsQuiet_dispatch env w1 w1 job p jobID (jobsQuiet_refl w1)) as HQ.
      match goal with |- context [match ?r with _ => _ end] => destruct r as [[e|] w2] end;
        simpl in HQ.
      * exists Store.JobStatusFailed. split; [auto|].
        eapply marked_twice; eauto. eapply marked_quiet; eauto. apply marked_fail.
      * exists Store.JobStatusSucceeded. split; [auto|].
        eapply marked_twice; eauto. eapply marked_quiet; eauto. apply marked_succeeded.
    + exists Store.JobStatusFailed. split; [auto|].
      eapply marked_twice; eauto. apply marked_fail.
Qed.




(** ** The queue at start-up *)

Section QueueFacts.

Import Store Jobs.

Lemma enqueueEach_fits js : forall q,
  (length (ch q) + length js <= capacity q)%nat ->
  enqueueEach q js = Returned None {| ch := ch q ++ map JobID js; capacity := capacity q |}.
Proof.
  induction js as [|j rest IH]; intros q Hfit; simpl in *.
  - rewrite app_nil_r. now destruct q.
  - unfold Enqueue. destruct (Nat.ltb_spec (length (ch q)) (capacity q)); [|lia].
    rewrite IH; simpl.
    + now rewrite <- app_assoc.
    + rewrite length_app. simpl. lia.
Qed.

Lemma enqueueEach_blocks js : forall q,
  (capacity q < length (ch q) + length js)%nat ->
  (length (ch q) <= capacity q)%nat ->
  enqueueEach q js =
    Blocked {| ch := ch q ++ map JobID (take (capacity q - length (ch q)) js);
               capacity := capacity q |}.
Proof.
  induction js as [|j rest IH]; intros q Hover Hle; simpl in *; [lia|].
  unfold Enqueue. destruct (Nat.ltb_spec (length (ch q)) (capacity q)).
  - rewrite IH; simpl; rewrite ?length_app; simpl; try lia.
    replace (capacity q - length (ch q))%nat with (S (capacity q - (length (ch q) + 1)))%nat by lia.
    simpl. now rewrite <- app_assoc.
  - replace (capacity q - length (ch q))%nat with 0%nat by lia. simpl.
    rewrite app_nil_r. now destruct q.
Qed.

#[local] Instance requestedBefore_trans : Transitive requestedBefore.
Proof. intros a b c. unfold requestedBefore. lia. Qed.

#[local] Instance requestedBefore_total : Total requestedBefore.
Proof. intros a b. unfold requestedBefore. lia. Qed.

(** The rows [ListJobsByStatus] returns: those of the status, each once, in
    ascending request time. *)
Lemma ListJobsByStatus_rows w status :
  StronglySorted requestedBefore (ListJobsByStatus w status) /\
  ListJobsByStatus w status ≡ₚ
    filter (fun j => Status j = status) (map snd (map_to_list (jobs w))).
Proof.
  unfold ListJobsByStatus. split.
  - apply StronglySorted_merge_sort; apply _.
  - apply merge_sort_Permutation.
Qed.

(** When the queued jobs fit the channel, recovery enqueues exactly them, in
    ascending request time. *)
Lemma EnqueuePersisted_fits w q :
  (length (ch q) + length (ListJobsByStatus w JobStatusQueued) <= capacity q)%nat ->
  EnqueuePersisted w q =
    Returned None {| ch := ch q ++ map JobID (ListJobsByStatus w JobStatusQueued);
                     capacity := capacity q |}.
Proof. apply enqueueEach_fits. Qed.

Lemma EnqueuePersisted_blocks w q :
  (capacity q < length (ch q) + length (ListJobsByStatus w JobStatusQueued))%nat ->
  (length (ch q) <= capacity q)%nat ->
  EnqueuePersisted w q =
    Blocked {| ch := ch q ++ map JobID (take (capacity q - length (ch q))
                                           (ListJobsByStatus w JobStatusQueued));
               capacity := capacity q |}.
Proof. apply enqueueEach_blocks. Qed.

End QueueFacts.

(** C6. At start-up [main] builds the queue with a buffer of 128 and calls
    [EnqueuePersisted] before the worker runs.  With 129 queued jobs in the
    store the 129th send never returns: the call stays blocked with the 128
    oldest identifiers in the channel, and the newest one is not enqueued. *)
Theorem EnqueuePersisted_blocks_past_buffer :
  Jobs.EnqueuePersisted (Samples.backlog 129) (Jobs.NewQueue 128) =
    Jobs.Blocked {| Jobs.ch := map (fun i => "job-" ++ Jobs.Itoa i) (seq 0 128);
                    Jobs.capacity := 128 |} /\
  length (Jobs.ListJobsByStatus (Samples.backlog 129) Store.JobStatusQueued) = 129%nat /\
  In "job-128" (map Store.JobID (Jobs.ListJobsByStatus (Samples.backlog 129) Store.JobStatusQueued)) /\
  ~ In "job-128" (map (fun i => "job-" ++ Jobs.Itoa i) (seq 0 128)).
Proof.
  split; [vm_compute; reflexivity|].
  split; [vm_compute; reflexivity|].
  split.
  - assert (H : existsb (String.eqb "job-128")
                  (map Store.JobID (Jobs.ListJobsByStatus (Samples.backlog 129) Store.JobStatusQueued))
                = true) by (vm_compute; reflexivity).
    apply existsb_exists in H. destruct H as (x & Hx & E).
    apply String.eqb_eq in E. subst x. exact Hx.
  - intros H.
    assert (F : existsb (String.eqb "job-128") (map (fun i => "job-" ++ Jobs.Itoa i) (seq 0 128))
                = false) by (vm_compute; reflexivity).
    assert (T : existsb (String.eqb "job-128") (map (fun i => "job-" ++ Jobs.Itoa i) (seq 0 128))
                = true).
    { apply existsb_exists. exists "job-128". split; [exact H | apply String.eqb_refl]. }
    rewrite F in T. discriminate T.
Qed.

(** ** Git checkout *)

(** C9. Reference resolution of [checkoutRef].  An empty ref checks nothing
    out.  A ref of 40 hexadecimal digits is checked out as a commit hash.  Any
    other ref is looked up as the literal reference name, [refs/remotes/origin/ref],
    [refs/tags/ref], [refs/heads/ref], and then as the revision expressions
    [ref], [origin/ref], [refs/remotes/origin/ref], [refs/tags/ref],
    [refs/heads/ref]; the first that resolves is checked out, and when none
    does the error names the ref. *)
Theorem checkoutRef_resolution_order
    (Reference ResolveRevision : string -> option string)
    (Checkout : string -> option string) (Quote : string -> string) (ref : string) :
  let run wt := Git.checkoutRef wt Reference ResolveRevision Checkout Quote in
  (forall wt, run wt "" = {| Git.checkedOut := None; Git.checkoutErr := None |}) /\
  (ref <> "" -> Git.hex40 ref = true ->
   run None ref = {| Git.checkedOut := Some (Git.NewHash ref);
                     Git.checkoutErr := Checkout (Git.NewHash ref) |}) /\
  (ref <> "" -> Git.hex40 ref = false ->
   run None ref =
     match Spec.firstResolved Reference ResolveRevision (Spec.candidatesOf ref) with
     | Some h => {| Git.checkedOut := Some h; Git.checkoutErr := Checkout h |}
     | None => {| Git.checkedOut := None;
                  Git.checkoutErr := Some ("unknown git_ref: " ++ Quote ref) |}
     end) /\
  (forall pre c post h,
     ref <> "" -> Git.hex40 ref = false ->
     Spec.candidatesOf ref = (pre ++ c :: post)%list ->
     Forall (fun c' => Spec.resolve Reference ResolveRevision c' = None) pre ->
     Spec.resolve Reference ResolveRevision c = Some h ->
     Git.checkedOut (run None ref) = Some h).
Proof.
  intros run.
  assert (Hmain : ref <> "" -> Git.hex40 ref = false ->
    run None ref =
      match Spec.firstResolved Reference ResolveRevision (Spec.candidatesOf ref) with
      | Some h => {| Git.checkedOut := Some h; Git.checkoutErr := Checkout h |}
      | None => {| Git.checkedOut := None;
                   Git.checkoutErr := Some ("unknown git_ref: " ++ Quote ref) |}
      end).
  { intros Hne Hhex. subst run. unfold Git.checkoutRef.
    apply String.eqb_neq in Hne. rewrite Hne, Hhex.
    unfold Git.NewRemoteReferenceName, Git.NewTagReferenceName, Git.NewBranchReferenceName.
    cbn [Git.tryReferences Git.tryRevisions Spec.candidatesOf Spec.firstResolved Spec.resolve].
    change ("refs/remotes/" ++ "origin" ++ "/" ++ ref) with ("refs/remotes/origin/" ++ ref).
    repeat match goal with
           | |- context [match ?x with Some _ => _ | None => _ end] =>
               match x with
               | Reference _ => destruct x
               | ResolveRevision _ => destruct x
               end
           end; reflexivity. }
  split; [| split; [| split; [exact Hmain|]]].
  - intros wt. reflexivity.
  - intros Hne Hhex. subst run. unfold Git.checkoutRef.
    apply String.eqb_neq in Hne. now rewrite Hne, Hhex.
  - intros pre c post h Hne Hhex Hsplit Hpre Hc.
    rewrite (Hmain Hne Hhex), Hsplit.
    assert (Hf : Spec.firstResolved Reference ResolveRevision (pre ++ c :: post) = Some h).
    { clear Hsplit. induction Hpre as [|c' pre' Hc' _ IH]; simpl.
      - now rewrite Hc.
      - now rewrite Hc'. }
    now rewrite Hf.
Qed.

(** ** Strings: trimming and splitting *)

Section StringFacts.

Variable f : ascii -> bool.



Lemma TrimRightFunc_all s : allBytes f s = true -> TrimRightFunc f s = "".
Proof.
  induction s as [|c s IH]; simpl; auto.
  intros H. apply andb_true_iff in H as [Hc Hs]. now rewrite (IH Hs), Hc.
Qed.




End StringFacts.





Section SplitFacts.

Variable sep : ascii.
Hypothesis sep_not_space : isSpace sep = false.







End SplitFacts.

(** ** The compose service selector *)







(** ** The Dockerfile port parser *)


Lemma wrap64_idem a : Ports.wrap64 (Ports.wrap64 a) = Ports.wrap64 a.
Proof.
  unfold Ports.wrap64.
  replace ((a + 2 ^ 63) mod 2 ^ 64 - 2 ^ 63 + 2 ^ 63)%Z with ((a + 2 ^ 63) mod 2 ^ 64)%Z by lia.
  now rewrite Z.mod_mod by lia.
Qed.

Lemma wrap64_small a : (- 2 ^ 63 <= a < 2 ^ 63)%Z -> Ports.wrap64 a = a.
Proof. intros H. unfold Ports.wrap64. rewrite Z.mod_small; lia. Qed.


























(** ** Where deploy writes the configuration files *)

(** C2. [deploy] joins the configured Dockerfile path to the working directory
    with a plain [filepath.Join], without the path guard: with the Dockerfile
    path [../../../etc/cron.d/job] the literal text is written to
    [/etc/cron.d/job], outside the working directory [/data/repos/p1], and the
    deploy goes on to succeed.  The guard itself refuses the same value as a
    subdirectory. *)
Theorem deploy_writes_outside_workdir :
  let p := Samples.dockerfileProject "../../../etc/cron.d/job" in
  let w := Samples.storeOf (Samples.jobOf Store.JobTypeDeploy Store.JobStatusQueued) p in
  Jobs.WorkDir Samples.calmEnv p = Ok "/data/repos/p1" /\
  In (Jobs.OsWriteFile "/etc/cron.d/job" "FROM alpine")
     (Jobs.trace (snd (Jobs.deploy Samples.calmEnv p "j1" w))) /\
  fst (Jobs.deploy Samples.calmEnv p "j1" w) = None /\
  Spec.within (Ok "/app") "/data/repos/p1" "/etc/cron.d/job" = false /\
  is_err (Workspace.SafeJoin (Ok "/app") "/data/repos/p1" "../../../etc/cron.d/job") = true.
Proof.
  vm_compute. repeat split; auto 10.
Qed.

(** ** Paths *)

Section SplitMore.

Variable sep : ascii.





End SplitMore.

Section CleanFacts.

Import Filepath Spec.





























Lemma cleaned_nonempty m :
  (if GoStrings.Join m "/" =? "" then "." else GoStrings.Join m "/") <> "".
Proof.
  destruct (GoStrings.Join m "/" =? "") eqn:E; [discriminate|]. now apply String.eqb_neq.
Qed.











End CleanFacts.

(** *** What trimming and the change of separators do to the elements *)

Section TrimElements.

Import Spec.

Variable sep : ascii.
Hypothesis sep_not_space : isSpace sep = false.








End TrimElements.

Section ReplaceElements.

Variables old new : ascii.
Hypothesis old_new : (old =? new)%char = false.



End ReplaceElements.

(** *** The path guard *)

Section PathGuard.

Import Filepath Spec Workspace.










End PathGuard.



(** ** The compose port parser *)

(** The cases of the repository's tests. *)
Example parseDockerfilePort_tests :
  let q := Spec.dquote in
  let nl := Jobs.nl in
  Ports.parseDockerfilePort
    ("FROM alpine:3.20" ++ nl ++ "WORKDIR /app" ++ nl ++ "EXPOSE 8080" ++ nl ++ "CMD [" ++ q ++ "app" ++ q ++ "]")
    = 8080%Z /\
  Ports.parseDockerfilePort
    ("FROM alpine:3.20" ++ nl ++ "EXPOSE 3000/tcp" ++ nl ++ "CMD [" ++ q ++ "app" ++ q ++ "]") = 3000%Z /\
  Ports.parseDockerfilePort
    ("FROM alpine:3.20" ++ nl ++ "EXPOSE 8080" ++ nl ++ "EXPOSE 9090" ++ nl ++ "CMD [" ++ q ++ "app" ++ q ++ "]")
    = 8080%Z /\
  Ports.parseDockerfilePort ("FROM alpine:3.20\nCMD [" ++ q ++ "app" ++ q ++ "]") = 0%Z.
Proof. vm_compute. repeat split; reflexivity. Qed.

Example parseComposePort_tests :
  let q := Spec.dquote in
  let nl := Jobs.nl in
  let head := "version: " ++ q ++ "3.8" ++ q ++ nl ++ "services:" ++ nl in
  Ports.parseComposePort
    (head ++ "  web:" ++ nl ++ "    image: nginx" ++ nl ++ "    ports:" ++ nl ++
     "      - " ++ q ++ "8080:80" ++ q) "web" = (8080, 80)%Z /\
  Ports.parseComposePort
    (head ++ "  app:" ++ nl ++ "    image: node" ++ nl ++ "    ports:" ++ nl ++
     "      - " ++ q ++ "3000:3000" ++ q) "app" = (3000, 3000)%Z /\
  Ports.parseComposePort
    (head ++ "  web:" ++ nl ++ "    image: nginx" ++ nl ++ "    ports:" ++ nl ++
     "      - " ++ q ++ "8080:80" ++ q ++ nl ++ "      - " ++ q ++ "8443:443" ++ q) "web"
    = (8080, 80)%Z /\
  Ports.parseComposePort (head ++ "  web:" ++ nl ++ "    image: nginx") "web" = (0, 0)%Z.
Proof. vm_compute. repeat split; reflexivity. Qed.

Section LineShapes.

Import Spec Ports.





















Lemma services_line name : scanLine name initialScan "services:" = Continue searching.
Proof. reflexivity. Qed.






















(** *** Blocks of lines *)







(** *** Service blocks *)




(** *** Documents *)









End LineShapes.



(** ** The properties at concrete inputs *)

(** A job that is already running is left alone; a queued one ends
    [succeeded] when every call succeeds. *)
Lemma runJob_only_queued_witness :
  let p := Samples.dockerfileProject "Dockerfile" in
  let running := Samples.storeOf (Samples.jobOf Store.JobTypeDeploy Store.JobStatusRunning) p in
  let queued := Samples.storeOf (Samples.jobOf Store.JobTypeDeploy Store.JobStatusQueued) p in
  Jobs.runJob Samples.calmEnv "j1" running = running /\
  exists fin,
    (fin = Store.JobStatusSucceeded \/ fin = Store.JobStatusFailed) /\
    Spec.statusWrites (Jobs.trace (Jobs.runJob Samples.calmEnv "j1" queued)) =
      (Spec.statusWrites (Jobs.trace queued) ++ [("j1", Store.JobStatusRunning); ("j1", fin)])%list /\
    Store.Status <$> Jobs.jobs (Jobs.runJob Samples.calmEnv "j1" queued) !! "j1" = Some fin /\
    (forall id, id <> "j1" ->
       Store.Status <$> Jobs.jobs (Jobs.runJob Samples.calmEnv "j1" queued) !! id =
       Store.Status <$> Jobs.jobs queued !! id).
Proof.
  intros p running queued. split.
  - apply (proj1 (runJob_only_queued Samples.calmEnv running "j1")).
    intros job H. vm_compute in H. injection H as <-. discriminate.
  - apply (proj2 (runJob_only_queued Samples.calmEnv queued "j1")
             (Samples.jobOf Store.JobTypeDeploy Store.JobStatusQueued));
      vm_compute; reflexivity.
Defined.




Lemma checkoutRef_resolution_order_witness :
  let Reference := fun name => if name =? "refs/tags/v1" then Some "aaaa" else None in
  let ResolveRevision := fun rev => if rev =? "v1" then Some "bbbb" else None in
  Git.checkedOut (Git.checkoutRef None Reference ResolveRevision (fun _ => None) (fun s => s) "v1")
    = Some "aaaa".
Proof.
  intros Reference ResolveRevision.
  apply (proj2 (proj2 (proj2 (checkoutRef_resolution_order Reference ResolveRevision
                                (fun _ => None) (fun s => s) "v1")))
           [Spec.ByReference "v1"; Spec.ByReference "refs/remotes/origin/v1"]
           (Spec.ByReference "refs/tags/v1")
           [Spec.ByReference "refs/heads/v1"; Spec.ByRevision "v1"; Spec.ByRevision "origin/v1";
            Spec.ByRevision "refs/remotes/origin/v1"; Spec.ByRevision "refs/tags/v1";
            Spec.ByRevision "refs/heads/v1"]).
  - discriminate.
  - reflexivity.
  - reflexivity.
  - repeat constructor.
  - reflexivity.
Defined.



